(** * Statistical shape model notebook: the numerical core

    A shallow embedding of [NoteBookSSM__SummerSchool_students.ipynb]:
    the shape-matrix loop, the mean/centering cells, the use the notebook
    makes of a fitted [PCA] object (components, transform), the
    reconstruction cells, the mode-perturbation cell, the introductory
    covariance/eigh comparison, the point-cloud reader and reshape, and
    the cumulative-variance cells.

    Arrays are MathComp matrices; a one-dimensional NumPy array of length
    [n] is a row vector ['rV_n].  Scalars range over an ordered field.
    The properties stated of the notebook's own cells are those on which
    rounding has no say: moving, slicing and re-ordering data, indices
    and orders, adding zero, negating.  Where rounding decides, the line
    is evaluated in binary64 (module [Float64]).
    [sklearn.decomposition.PCA] and [np.linalg.eigh] are library calls;
    they enter through the relation between their input and their output
    attributes that the libraries document, and the comparison of the two
    is about that documented relation. *)

From HB Require Import structures.
From mathcomp Require Import ssreflect ssrfun ssrbool eqtype ssrnat seq path div choice.
From mathcomp Require Import fintype tuple finfun bigop order ssralg ssrnum ssrint rat matrix.
From mathcomp Require Import ring_tactic field_tactic.
From Stdlib Require Import Floats.

Set Implicit Arguments.
Unset Strict Implicit.
Unset Printing Implicit Defensive.

Import GRing.Theory Num.Theory Order.POrderTheory Order.TotalTheory.

(** ** The shape-matrix cell (cell 11) *)

Module ShapeMatrixBuilder.

Section Builder.

(** The coordinate type; nothing in this cell computes with it. *)
Variable T : Type.

(** What [polydata.GetPoints()] gives for one file: the points in file
    order. *)
Definition vtkPoints := seq (T * T * T).

Definition GetNumberOfPoints (points : vtkPoints) : nat := size points.

(** [points.GetPoint(i)] is the triple [(x, y, z)] of point [i]; the loop
    only asks for [i < n_points]. *)
Definition GetPoint (points : vtkPoints) (i : nat) : seq T :=
  if drop i points is (x, y, z) :: _ then [:: x; y; z] else [::].

(** [shape = []; for i in range(n_points): shape.extend(points.GetPoint(i))] *)
Definition flatten_shape (points : vtkPoints) : seq T :=
  foldl (fun shape i => shape ++ GetPoint points i) [::]
        (iota 0 (GetNumberOfPoints points)).

(** [shapes = []; for file in vtk_files: ...; shapes.append(shape)] *)
Definition read_shapes (files : seq vtkPoints) : seq (seq T) :=
  foldl (fun shapes points => rcons shapes (flatten_shape points)) [::] files.

(** The result of [np.array] on a list of lists of floats: the empty list
    gives the one-dimensional array of shape (0,), rows of one common
    length [n] give a two-dimensional array of shape (M, n), and rows of
    different lengths are refused (NumPy 1.24 and later raise
    [ValueError]: inhomogeneous shape). *)
Inductive ndarray :=
  | Array1 of seq T
  | Array2 of nat & seq (seq T).

Inductive exception := ValueError.

Definition np_array (rows : seq (seq T)) : exception + ndarray :=
  if rows is r0 :: rest then
    if all (fun r => size r == size r0) rest
    then inr (Array2 (size r0) rows)
    else inl ValueError
  else inr (Array1 [::]).

(** [X = np.array(shapes)] *)
Definition build_X (files : seq vtkPoints) : exception + ndarray :=
  np_array (read_shapes files).

(** The feature order [x0, y0, z0, x1, y1, z1, ...] of the data model. *)
Definition coordinates (points : vtkPoints) : seq T :=
  flatten [seq [:: p.1.1; p.1.2; p.2] | p <- points].

Lemma GetPoint_cons p points i :
  GetPoint (p :: points) i.+1 = GetPoint points i.
Proof. by []. Qed.

Lemma foldl_extend (f : nat -> seq T) (acc : seq T) (s : seq nat) :
  foldl (fun shape i => shape ++ f i) acc s = acc ++ flatten [seq f i | i <- s].
Proof.
elim: s acc => [|i s IHs] acc /=; first by rewrite cats0.
by rewrite IHs catA.
Qed.

Lemma flatten_shapeE points : flatten_shape points = coordinates points.
Proof.
rewrite /flatten_shape /coordinates /GetNumberOfPoints foldl_extend /=.
elim: points => [|[[x y] z] points IHpoints] //=.
congr [:: _, _, _ & _].
rewrite -[1%N]addn0 iotaDl -map_comp -IHpoints.
by congr flatten; apply: eq_map => i.
Qed.

Lemma size_coordinates points : size (coordinates points) = (3 * size points)%N.
Proof.
rewrite /coordinates; elim: points => [|p points IHpoints] //=.
by rewrite IHpoints mulnS.
Qed.

Lemma foldl_append (U V : Type) (f : U -> V) (acc : seq V) (s : seq U) :
  foldl (fun shapes u => rcons shapes (f u)) acc s = acc ++ [seq f u | u <- s].
Proof.
elim: s acc => [|u s IHs] acc /=; first by rewrite cats0.
by rewrite IHs cat_rcons.
Qed.

Lemma read_shapesE files : read_shapes files = [seq coordinates p | p <- files].
Proof.
rewrite /read_shapes foldl_append /=.
by apply: eq_map => p; rewrite flatten_shapeE.
Qed.

(** The array that [np.array] builds from well-formed input: one row per
    file, [3 * P] columns, row [i] the coordinates of file [i]. *)
Lemma np_array_coordinates p0 files :
  all (fun p => size p == size p0) files ->
  np_array [seq coordinates p | p <- p0 :: files]
    = inr (Array2 (3 * size p0) [seq coordinates p | p <- p0 :: files]).
Proof.
move=> same_size; rewrite /np_array /= size_coordinates all_map.
rewrite (@eq_all _ _ (fun p => size p == size p0)) ?same_size // => p /=.
by rewrite !size_coordinates eqn_pmul2l.
Qed.

(** C6, as the cell behaves: the cell has no check of its own.  On no
    files at all it returns the empty one-dimensional array and signals
    nothing; on files with one common point count [P] it returns the
    [M] x [3 * P] array whose row [i] is the flattening
    [x0, y0, z0, x1, ...] of file [i]; on files whose point counts differ
    the array construction itself is refused with [ValueError]. *)
Theorem build_X_spec (files : seq vtkPoints) :
  build_X files =
    if files is p0 :: _ then
      if all (fun p => GetNumberOfPoints p == GetNumberOfPoints p0) files
      then inr (Array2 (3 * GetNumberOfPoints p0)
                       [seq coordinates p | p <- files])
      else inl ValueError
    else inr (Array1 [::]).
Proof.
rewrite /build_X read_shapesE /GetNumberOfPoints.
case: files => [|p0 files] //=; rewrite eqxx /=.
case same_size: (all _ files); first exact: np_array_coordinates.
rewrite /np_array /= all_map.
rewrite (@eq_all _ _ (fun p => size p == size p0)) ?same_size // => p /=.
by rewrite !size_coordinates eqn_pmul2l.
Qed.

End Builder.

(** Two files of two points each; then two files of one and two points. *)
Example build_X_two_files :
  build_X [:: [:: (1, 2, 3); (4, 5, 6)]; [:: (7, 8, 9); (10, 11, 12)]]
    = inr (Array2 6 [:: [:: 1; 2; 3; 4; 5; 6]; [:: 7; 8; 9; 10; 11; 12]]).
Proof. by []. Qed.

Example build_X_ragged :
  build_X [:: [:: (1, 2, 3)]; [:: (1, 2, 3); (4, 5, 6)]] = inl ValueError.
Proof. by []. Qed.

(** C6, as stated, at the empty set of shapes: the cell returns an array
    where the claim asks for the failure [EmptyInput]. *)
Lemma build_X_empty_is_no_failure :
  build_X (T := rat) [::] = inr (Array1 [::]) /\
  ~ (exists e : exception, build_X (T := rat) [::] = inl e).
Proof. by split=> // -[e]. Qed.

End ShapeMatrixBuilder.

Local Open Scope ring_scope.

(** ** The NumPy operations the cells use *)

Module Numpy.

Section Arrays.

Variable R : realFieldType.

(** [np.mean(X, axis=0)]: one mean per column. *)
Definition mean_axis0 M N (X : 'M[R]_(M, N)) : 'rV[R]_N :=
  \row_j ((\sum_i X i j) / M%:R).

(** A length-[N] vector broadcast against an array with [M] rows. *)
Definition broadcast M N (v : 'rV[R]_N) : 'M[R]_(M, N) :=
  \matrix_(i, j) v 0 j.

(** [np.mean(v)] of a one-dimensional array. *)
Definition mean N (v : 'rV[R]_N) : R := (\sum_j v 0 j) / N%:R.

(** [v ** 2], elementwise. *)
Definition square N (v : 'rV[R]_N) : 'rV[R]_N := \row_j (v 0 j) ^+ 2.

(** [np.dot(a, B)] of a one-dimensional [a] and a two-dimensional [B]. *)
Definition dot n N (a : 'rV[R]_n) (B : 'M[R]_(n, N)) : 'rV[R]_N := a *m B.

(** [a[:n]]: the first [n] entries (all of them when [n] exceeds the
    length). *)
Definition take_entries K (n : nat) (a : 'rV[R]_K) : 'rV[R]_(minn n K) :=
  \row_j a 0 (widen_ord (geq_minr n K) j).

(** [A[:, :n]]: the first [n] columns. *)
Definition take_cols N K (n : nat) (A : 'M[R]_(N, K)) : 'M[R]_(N, minn n K) :=
  \matrix_(i, j) A i (widen_ord (geq_minr n K) j).

(** [np.cov(m)], rows of [m] the variables and columns the observations:
    subtract the row averages, multiply by the transpose, scale by
    [1 / fact] with [fact = m.shape[1] - 1].  (For two variables or more;
    NumPy squeezes the 1 x 1 result to a scalar.) *)
Definition cov N M (m : 'M[R]_(N, M)) : 'M[R]_N :=
  let avg : 'cV[R]_N := \col_i ((\sum_j m i j) / M%:R) in
  let m0 : 'M[R]_(N, M) := \matrix_(i, j) (m i j - avg i 0) in
  (1 / (M%:R - 1)) *: (m0 *m m0^T).

End Arrays.

(** [np.std(v)]: the square root of the mean squared deviation from the
    mean (no degrees-of-freedom correction). *)
Definition std (R : rcfType) N (v : 'rV[R]_N) : R :=
  Num.sqrt (mean (square (\row_j (v 0 j - mean v)))).

Section ArrayLemmas.

Variable R : realFieldType.

Lemma mean_axis0_centered M N (X : 'M[R]_(M, N)) :
  (0 < M)%N -> mean_axis0 (X - broadcast M (mean_axis0 X)) = 0.
Proof.
move=> M_gt0; apply/rowP=> j; rewrite !mxE.
have M_neq0 : M%:R != 0 :> R by rewrite pnatr_eq0 -lt0n.
under eq_bigr => i _ do rewrite !mxE.
rewrite sumrB sumr_const card_ord -mulr_natr divfK // subrr mul0r //.
Qed.

Lemma take_dot N K (n : nat) (c : 'rV[R]_K) (A : 'M[R]_(N, K)) :
  dot (take_entries n c) (take_cols n A)^T
    = \sum_(j < K | (j < n)%N) c 0 j *: (col j A)^T.
Proof.
apply/rowP=> l; rewrite /dot mxE summxE.
have narrow (j : 'I_K) : (j < n)%N = true && (j < minn n K)%N.
  by rewrite leq_min ltn_ord andbT.
rewrite [RHS](eq_bigl _ _ narrow).
rewrite (big_ord_narrow_cond (geq_minr n K)) /=.
by apply: eq_bigr => j _; rewrite !mxE.
Qed.

Lemma broadcast0 M N : broadcast M (0 : 'rV[R]_N) = 0.
Proof. by apply/matrixP=> i j; rewrite !mxE. Qed.

(** The first [n] entries of a row, as a diagonal 0/1 mask. *)
Definition mask K (n : nat) : 'M[R]_K := diag_mx (\row_k ((k < n)%N)%:R).

Lemma take_dot_mask N K n (c : 'rV[R]_K) (A : 'M[R]_(N, K)) :
  dot (take_entries n c) (take_cols n A)^T = c *m mask K n *m A^T.
Proof.
rewrite take_dot; apply/rowP=> l; rewrite summxE mxE.
rewrite big_mkcond /=; apply: eq_bigr => k _.
rewrite mul_mx_diag !mxE.
by case: (k < n)%N; rewrite ?mulr1 ?mulr0 ?mul0r // !mxE.
Qed.

End ArrayLemmas.

End Numpy.

(** ** What the notebook uses of scikit-learn's PCA *)

Module Sklearn.

Import Numpy.

Section PCA.

Variable R : realFieldType.

(** The attributes of a [PCA()] object after [fit] on an [M] x [N] array:
    with no [n_components] given there are [min(M, N)] components. *)
Record PCA (M N : nat) := mkPCA {
  mean_ : 'rV[R]_N;
  components_ : 'M[R]_(minn M N, N);
  singular_values_ : 'rV[R]_(minn M N);
  explained_variance_ : 'rV[R]_(minn M N)
}.

(** [pca.fit(A)]: the object holds the column means of [A], a thin
    singular value decomposition [U * diag(S) * Vt] of the centered array
    with [Vt] as [components_] and [S] as [singular_values_], and
    [S ** 2 / (n_samples - 1)] as [explained_variance_]. *)
Record fit M N (A : 'M[R]_(M, N)) (pca : PCA M N) : Prop := Fit {
  fit_mean : mean_ pca = mean_axis0 A;
  fit_svd : exists2 U : 'M[R]_(M, minn M N), U^T *m U = 1%:M &
      A - broadcast M (mean_ pca)
        = U *m diag_mx (singular_values_ pca) *m components_ pca;
  fit_components : components_ pca *m (components_ pca)^T = 1%:M;
  fit_explained_variance : explained_variance_ pca =
      \row_k ((singular_values_ pca) 0 k ^+ 2 / (M%:R - 1))
}.

(** [pca.transform(Y)]: center with the fitted mean, project on the
    components. *)
Definition transform M N (pca : PCA M N) M' (Y : 'M[R]_(M', N)) :
    'M[R]_(M', minn M N) :=
  (Y - broadcast M' (mean_ pca)) *m (components_ pca)^T.

End PCA.

End Sklearn.

(** ** The cells from the mean shape to the reconstruction error *)

Module Notebook.

Import Numpy Sklearn.

Section Pipeline.

Variable R : realFieldType.

(** [X] is the [M] x [N] shape matrix; [pca] is the object of cell 28. *)
Variables (M N : nat) (X : 'M[R]_(M, N)) (pca : PCA R M N).

(** Cell 24: [X_mean = np.mean(X, axis=0)]. *)
Definition X_mean : 'rV[R]_N := mean_axis0 X.

(** Cell 26: [X_centered = X - X_mean]. *)
Definition X_centered : 'M[R]_(M, N) := X - broadcast M X_mean.

(** Cell 30: [principal_components = pca.components_.T]. *)
Definition principal_components : 'M[R]_(N, minn M N) := (components_ pca)^T.

(** Cell 39: [principal_coefficients = pca.transform(X_centered)]. *)
Definition principal_coefficients : 'M[R]_(M, minn M N) :=
  transform pca X_centered.

(** Cell 42, with all the components:
    [np.dot(principal_coefficients[0,], principal_components[:, :].T) + X_mean]. *)
Definition reconstructed_shape_all (which_shape : 'I_M) : 'rV[R]_N :=
  dot (row which_shape principal_coefficients) principal_components^T + X_mean.

(** Cells 44, 46 and 48, with the first [n] components, for any row of
    coefficients:
    [np.dot(coefficients[:n], principal_components[:, :n].T) + X_mean]. *)
Definition reconstruct (coefficients : 'rV[R]_(minn M N)) (n : nat) : 'rV[R]_N :=
  dot (take_entries n coefficients) (take_cols n principal_components)^T + X_mean.

Definition reconstructed_shape (which_shape : 'I_M) (n_components : nat) :
    'rV[R]_N :=
  reconstruct (row which_shape principal_coefficients) n_components.

(** C8. Reconstructing with no component ([n_components = 0]) gives back
    the mean shape exactly, whatever the row of coefficients and whatever
    the PCA object: both slices are empty and their product is the zero
    vector. *)
Theorem reconstruct_zero_components (coefficients : 'rV[R]_(minn M N)) :
  reconstruct coefficients 0 = X_mean.
Proof. by rewrite /reconstruct take_dot big_pred0 ?add0r. Qed.

Lemma principal_componentsT : principal_components^T = components_ pca.
Proof. exact: trmxK. Qed.

Lemma reconstructE (coefficients : 'rV[R]_(minn M N)) n :
  reconstruct coefficients n
    = coefficients *m mask R (minn M N) n *m components_ pca + X_mean.
Proof. by rewrite /reconstruct take_dot_mask principal_componentsT. Qed.

(** All the components, written as a prefix: [n_components] at or beyond
    the number of components selects every one of them. *)
Lemma reconstructed_shape_full (which_shape : 'I_M) n :
  (minn M N <= n)%N ->
  reconstructed_shape which_shape n = reconstructed_shape_all which_shape.
Proof.
move=> K_le_n; rewrite /reconstructed_shape reconstructE.
rewrite /reconstructed_shape_all /dot principal_componentsT.
suff -> : mask R (minn M N) n = 1%:M by rewrite mulmx1.
apply/matrixP=> k l; rewrite !mxE (leq_trans (ltn_ord k) K_le_n).
by [].
Qed.

End Pipeline.

(** *** The mode cell (cell 50) *)

Section Modes.

Variable R : rcfType.

(** The features are the coordinates of [n_points] points, three each:
    [n_points = X_mean.shape[0] // 3]. *)
Variables (M n_points : nat).
Local Notation N := (n_points * 3)%N.
Variables (X : 'M[R]_(M, N)) (pca : PCA R M N).

Lemma reshape_index (p : 'I_n_points) (d : 'I_3) : (p * 3 + d < N)%N.
Proof.
apply: (@leq_trans (p.+1 * 3)); last by rewrite leq_mul2r ltn_ord orbT.
by rewrite mulSn addnC ltn_add2r.
Qed.

(** [v.reshape(n_points, 3)]: row [p] holds the entries [3p], [3p + 1],
    [3p + 2] of [v]. *)
Definition reshape (v : 'rV[R]_N) : 'M[R]_(n_points, 3) :=
  \matrix_(p, d) v 0 (Ordinal (reshape_index p d)).


(** [mode_std = np.std(principal_coefficients[:, selected_mode])]. *)
Definition mode_std (selected_mode : 'I_(minn M N)) : R :=
  std (col selected_mode (principal_coefficients X pca))^T.

(** [X_mean + coeff * mode_std * principal_components[:, selected_mode]]
    and the same with [-]. *)
Definition effect_selcted_mode_pos_flat (selected_mode : 'I_(minn M N))
    (coeff : R) : 'rV[R]_N :=
  X_mean X
  + (coeff * mode_std selected_mode) *: (col selected_mode (principal_components pca))^T.

Definition effect_selcted_mode_neg_flat (selected_mode : 'I_(minn M N))
    (coeff : R) : 'rV[R]_N :=
  X_mean X
  - (coeff * mode_std selected_mode) *: (col selected_mode (principal_components pca))^T.

Definition effect_selcted_mode_pos selected_mode coeff : 'M[R]_(n_points, 3) :=
  reshape (effect_selcted_mode_pos_flat selected_mode coeff).

Definition effect_selcted_mode_neg selected_mode coeff : 'M[R]_(n_points, 3) :=
  reshape (effect_selcted_mode_neg_flat selected_mode coeff).


(** Negating the scale factor exchanges the two shapes.  (The binary64
    arrays of this cell are in [Float64].) *)
Lemma effect_selcted_mode_neg_opp (selected_mode : 'I_(minn M N)) (coeff : R) :
  effect_selcted_mode_neg selected_mode coeff
    = effect_selcted_mode_pos selected_mode (- coeff).
Proof.
rewrite /effect_selcted_mode_pos /effect_selcted_mode_neg.
rewrite /effect_selcted_mode_pos_flat /effect_selcted_mode_neg_flat.
by rewrite mulNr scaleNr.
Qed.

End Modes.

End Notebook.

Module Spectral.

Section Agreement.

Variable R : realFieldType.
Variables (K N : nat).

(** [C] is given twice: as [B^T * diag(d) * B] with orthonormal rows [B],
    and by eigenpairs [(w, E)] with orthonormal columns [E]. *)
Variables (C : 'M[R]_N) (B : 'M[R]_(K, N)) (d : 'rV[R]_K).
Variables (E : 'M[R]_N) (w : 'rV[R]_N).

Hypothesis C_factor : C = B^T *m diag_mx d *m B.
Hypothesis B_orthonormal : B *m B^T = 1%:M.
Hypothesis C_eigen : C *m E = E *m diag_mx w.
Hypothesis E_orthonormal : E^T *m E = 1%:M.

(** The dot products of the rows of [B] with the columns of [E]. *)
Variable G : 'M[R]_(K, N).
Hypothesis G_cross : G = B *m E.

Lemma rows_eigen : C *m B^T = B^T *m diag_mx d.
Proof. by rewrite C_factor -mulmxA B_orthonormal mulmx1. Qed.

Lemma factor_sym : C^T = C.
Proof. by rewrite C_factor !trmx_mul trmxK tr_diag_mx mulmxA. Qed.

Lemma cross_commute : diag_mx d *m G = G *m diag_mx w.
Proof.
rewrite G_cross -mulmxA -C_eigen C_factor !mulmxA.
by rewrite B_orthonormal mul1mx.
Qed.

Lemma cross_entry k i : d 0 k * G k i = G k i * w 0 i.
Proof.
have := cross_commute => /matrixP /(_ k i).
by rewrite mul_diag_mx mul_mx_diag !mxE.
Qed.

Lemma cross_zero k i : w 0 i != d 0 k -> G k i = 0.
Proof.
move=> neq; have entry := cross_entry k i.
have /eqP : G k i * (w 0 i - d 0 k) = 0 by rewrite mulrBr -entry mulrC subrr.
by rewrite mulf_eq0 subr_eq0 (negPf neq) orbF => /eqP.
Qed.

Lemma E_complete : E *m E^T = 1%:M.
Proof. exact: mulmx1C. Qed.

Lemma row_in_eigenspace k :
  row k B = \sum_(i < N | w 0 i == d 0 k) G k i *: (col i E)^T.
Proof.
have -> : row k B = row k G *m E^T.
  by rewrite -row_mul G_cross -mulmxA E_complete mulmx1.
rewrite mulmx_sum_row [RHS]big_mkcond /=; apply: eq_bigr => i _.
rewrite mxE tr_col; case: ifPn => // /cross_zero ->.
by rewrite scale0r.
Qed.

Lemma eigenvector_expansion i :
  w 0 i != 0 -> (col i E)^T = \sum_k G k i *: row k B.
Proof.
move=> w_neq0; apply: (scalerI w_neq0).
have -> : w 0 i *: (col i E)^T = row i (G^T *m diag_mx d) *m B.
  rewrite -row_mul G_cross trmx_mul -!mulmxA [B^T *m _]mulmxA -C_factor.
  rewrite -[C]factor_sym -trmx_mul C_eigen trmx_mul tr_diag_mx.
  by apply/rowP=> j; rewrite mul_diag_mx !mxE.
rewrite mulmx_sum_row scaler_sumr; apply: eq_bigr => k _; rewrite [in LHS]mxE.
have -> : (G^T *m diag_mx d) i k = G k i * d 0 k by rewrite mul_mx_diag !mxE.
by rewrite scalerA mulrC cross_entry mulrC.
Qed.

Lemma eigenvector_in_span i :
  w 0 i != 0 ->
  (col i E)^T = \sum_(k < K | d 0 k == w 0 i) G k i *: row k B.
Proof.
move=> /eigenvector_expansion ->; rewrite [RHS]big_mkcond /=.
apply: eq_bigr => k _; case: ifPn => //; rewrite eq_sym => /cross_zero ->.
by rewrite scale0r.
Qed.

Lemma cross_row_sq k : \sum_i G k i ^+ 2 = 1.
Proof.
have /matrixP /(_ k k) : G *m G^T = 1%:M.
  by rewrite G_cross trmx_mul mulmxA -(mulmxA B) E_complete mulmx1.
rewrite !mxE eqxx => GG_kk; rewrite -[RHS]GG_kk.
by apply: eq_bigr => i _; rewrite mxE expr2.
Qed.

Lemma cross_col_sq i : w 0 i != 0 -> \sum_k G k i ^+ 2 = 1.
Proof.
move=> w_neq0.
have unit_i : ((col i E)^T *m col i E) 0 0 = 1.
  have /matrixP /(_ i i) := E_orthonormal.
  rewrite [in RHS]mxE eqxx => EE_ii; rewrite -[RHS]EE_ii.
  by rewrite !mxE; apply: eq_bigr => j _; rewrite !mxE.
rewrite -unit_i {1}eigenvector_expansion // mulmx_suml summxE.
apply: eq_bigr => k _; rewrite -scalemxAl mxE expr2; congr (_ * _).
by rewrite G_cross !mxE; apply: eq_bigr => j _; rewrite !mxE.
Qed.

Lemma multiplicity x :
  x != 0 -> #|[pred i | w 0 i == x]| = #|[pred k | d 0 k == x]|.
Proof.
move=> x_neq0; apply/eqP; rewrite -(eqr_nat R); apply/eqP.
rewrite -!sumr_const.
transitivity (\sum_(i < N | w 0 i == x) \sum_(k < K | d 0 k == x) G k i ^+ 2).
  apply: eq_bigr => i /eqP w_x; rewrite -(@cross_col_sq i) ?w_x //.
  rewrite (bigID (fun k => d 0 k == x)) /= [X in _ + X]big1 ?addr0 // => k.
  by rewrite -w_x eq_sym => /cross_zero ->; rewrite expr0n.
rewrite exchange_big /=; apply: eq_bigr => k /eqP d_x.
rewrite -(cross_row_sq k) [RHS](bigID (fun i => w 0 i == x)) /=.
rewrite [X in _ + X]big1 ?addr0 // => i.
by rewrite -d_x => /cross_zero ->; rewrite expr0n.
Qed.

End Agreement.

End Spectral.

(** ** The introductory comparison (cells 1 to 3) *)

Module Comparison.

Import Numpy Sklearn.

Section Cells.

Variable R : realFieldType.
Variables (M N : nat) (X : 'M[R]_(M, N)).

(** Cell 1: [cov_matrix = np.cov(X.T)]. *)
Definition cov_matrix : 'M[R]_N := cov X^T.

(** [w, v = np.linalg.eigh(A)]: the columns of [v] are orthonormal, and
    column [i] is an eigenvector of [A] for the eigenvalue [w[i]]. *)
Definition eigh (A : 'M[R]_N) (w : 'rV[R]_N) (v : 'M[R]_N) : Prop :=
  A *m v = v *m diag_mx w /\ v^T *m v = 1%:M.

(** [np.argsort(w)]: the indices in an order that sorts [w] ascending.
    (Which of two equal values comes first is the sorting routine's
    choice; below only the order of the values and the fact that every
    index occurs once are used.) *)
Definition argsort (w : 'rV[R]_N) : N.-tuple 'I_N :=
  sort_tuple (fun i j => w 0 i <= w 0 j) (ord_tuple N).

(** The result of [eigh] in cell 1, before it is re-ordered. *)
Variables (eigh_values : 'rV[R]_N) (eigh_vectors : 'M[R]_N).

(** [sorted_indices = np.argsort(eigenvalues)[::-1]] *)
Definition sorted_indices : N.-tuple 'I_N := rev_tuple (argsort eigh_values).

(** [eigenvalues = eigenvalues[sorted_indices]] *)
Definition eigenvalues : 'rV[R]_N :=
  \row_j eigh_values 0 (tnth sorted_indices j).

(** [eigenvectors = eigenvectors[:, sorted_indices]] *)
Definition eigenvectors : 'M[R]_N :=
  \matrix_(i, j) eigh_vectors i (tnth sorted_indices j).

(** Cell 2: [pca = PCA(); pca.fit(X); principal_components = pca.components_]. *)
Variable pca : PCA R M N.

Definition principal_components : 'M[R]_(minn M N, N) := components_ pca.

Lemma cov_matrixE :
  cov_matrix = (1 / (M%:R - 1)) *:
    ((X - broadcast M (mean_axis0 X))^T *m (X - broadcast M (mean_axis0 X))).
Proof.
rewrite /cov_matrix /cov /=; congr (_ *: (_ *m _)); last rewrite -[RHS]trmxK; 
  try congr (_^T); apply/matrixP=> i j; rewrite !mxE;
  by congr (_ - _ / _); apply: eq_bigr => l _; rewrite mxE.
Qed.

Lemma sorted_indices_uniq : uniq sorted_indices.
Proof. by rewrite /= rev_uniq sort_uniq ?val_ord_tuple enum_uniq. Qed.

Lemma sorted_indices_inj : injective (tnth sorted_indices).
Proof.
move=> i j eq_ij; apply/val_inj/eqP.
rewrite -(nth_uniq i _ _ sorted_indices_uniq) ?size_tuple ?ltn_ord //.
by rewrite -!tnth_nth eq_ij.
Qed.

(** The re-ordering of cell 1 puts the eigenvalues in descending order,
    whatever order [eigh] returned them in. *)
Lemma eigenvalues_descending (i j : 'I_N) :
  (i <= j)%N -> eigenvalues 0 j <= eigenvalues 0 i.
Proof.
move=> i_le_j; rewrite !mxE !(tnth_nth i) /=.
set ge_values := fun a b : 'I_N => eigh_values 0 b <= eigh_values 0 a.
have ge_trans : transitive ge_values by move=> b a c ab bc; apply: le_trans ab.
have ge_refl : reflexive ge_values by move=> a; apply: lexx.
have sorted_rev : sorted ge_values (rev (sort (fun a b => eigh_values 0 a <= eigh_values 0 b) (ord_tuple N))).
  by rewrite rev_sorted; apply: sort_sorted => a b; apply: le_total.
have := sorted_leq_nth ge_trans ge_refl i sorted_rev.
by apply; rewrite ?inE ?size_rev ?size_sort ?size_tuple ?ltn_ord.
Qed.

(** Re-ordering eigenpairs keeps them eigenpairs. *)
Lemma eigh_sorted (A : 'M[R]_N) :
  eigh A eigh_values eigh_vectors -> eigh A eigenvalues eigenvectors.
Proof.
case=> eigen orthonormal; split.
  apply/matrixP=> i j; rewrite mul_mx_diag !mxE.
  have /matrixP /(_ i (tnth sorted_indices j)) := eigen.
  rewrite mul_mx_diag !mxE => <-.
  by apply: eq_bigr => l _; rewrite !mxE.
apply/matrixP=> i j; rewrite !mxE.
have /matrixP /(_ (tnth sorted_indices i) (tnth sorted_indices j)) := orthonormal.
rewrite !mxE (inj_eq sorted_indices_inj) => <-.
by apply: eq_bigr => l _; rewrite !mxE.
Qed.

(** What [fit] computed factors the covariance matrix. *)
Lemma cov_matrix_components :
  fit X pca ->
  cov_matrix = (components_ pca)^T *m diag_mx (explained_variance_ pca)
               *m components_ pca.
Proof.
move=> pca_fit; have [U U_orthonormal] := fit_svd pca_fit.
rewrite cov_matrixE -(fit_mean pca_fit) => ->.
rewrite !trmx_mul tr_diag_mx -!mulmxA [U^T *m _]mulmxA U_orthonormal mul1mx.
rewrite [diag_mx _ *m (diag_mx _ *m _)]mulmxA mulmx_diag.
rewrite scalemxAr scalemxAl (fit_explained_variance pca_fit).
congr (_ *m (_ *m _)); apply/matrixP=> k l; rewrite !mxE.
by case: (k == l); rewrite ?mulr1n ?mulr0n ?mulr0 // mul1r mulrC expr2.
Qed.

(** C1. On the same data (two samples or more, two features or more),
    what [PCA.fit] computes from the centered [M] x [N] array agrees with
    the eigen-decomposition of the [N] x [N] covariance matrix, up to the
    choice of basis inside an eigenspace (the sign, for a simple
    eigenvalue) and up to order:
    - every principal component is an eigenvector of the covariance
      matrix, its eigenvalue being its explained variance;
    - every principal component lies in the span of the eigenvectors of
      [eigh] whose eigenvalue is its explained variance;
    - every eigenvector of [eigh] with a non-zero eigenvalue lies in the
      span of the principal components whose explained variance is that
      eigenvalue;
    - every non-zero value occurs as often among the eigenvalues as
      among the explained variances. *)
Theorem pca_agrees_with_covariance_eigh :
  (1 < M)%N -> (1 < N)%N ->
  fit X pca -> eigh cov_matrix eigh_values eigh_vectors ->
  let dots := principal_components *m eigenvectors in
  [/\ forall k,
        cov_matrix *m (row k principal_components)^T
          = explained_variance_ pca 0 k *: (row k principal_components)^T,
      forall k,
        row k principal_components
          = \sum_(i < N | eigenvalues 0 i == explained_variance_ pca 0 k)
               dots k i *: (col i eigenvectors)^T,
      forall i, eigenvalues 0 i != 0 ->
        (col i eigenvectors)^T
          = \sum_(k < minn M N | explained_variance_ pca 0 k == eigenvalues 0 i)
               dots k i *: row k principal_components
    & forall x : R, x != 0 ->
        #|[pred i | eigenvalues 0 i == x]|
          = #|[pred k | explained_variance_ pca 0 k == x]| ].
Proof.
move=> _ _ pca_fit /eigh_sorted [eigen orthonormal] dots.
have factor := cov_matrix_components pca_fit.
have rows := fit_components pca_fit.
split.
- move=> k; apply/matrixP=> j l; rewrite !mxE.
  have /matrixP /(_ j k) := Spectral.rows_eigen factor rows.
  rewrite mul_mx_diag !mxE mulrC => <-.
  by apply: eq_bigr => a _; rewrite !mxE.
- exact: (Spectral.row_in_eigenspace factor rows eigen orthonormal (erefl dots)).
- exact: (Spectral.eigenvector_in_span factor rows eigen (erefl dots)).
- exact: (Spectral.multiplicity factor rows eigen orthonormal (erefl dots)).
Qed.

End Cells.

End Comparison.


(** ** Points and flat shapes (cells 13, 16 and 48) *)

Module PointCloud.

Import ShapeMatrixBuilder.

Section Reshape.

Variable T : Type.

(** Cell 16, [read_vtk_points]:
    [np.array([points.GetPoint(i) for i in range(n_points)])]. *)
Definition read_vtk_points (points : vtkPoints T) : exception + ndarray T :=
  np_array [seq GetPoint points i | i <- iota 0 (GetNumberOfPoints points)].

(** [flat.reshape(rows, cols)] of a one-dimensional array: refused with
    [ValueError] unless [rows * cols] is the number of entries. *)
Definition np_reshape (flat : seq T) (rows cols : nat) : exception + ndarray T :=
  if (rows * cols)%N == size flat
  then inr (Array2 cols (reshape (nseq rows cols) flat))
  else inl ValueError.

(** Cell 48: [n_points = flat.shape[0] // 3; flat.reshape(n_points, 3)]. *)
Definition reshape_points (flat : seq T) : exception + ndarray T :=
  let n_points := (size flat %/ 3)%N in
  np_reshape flat n_points 3.

Definition triples (points : vtkPoints T) : seq (seq T) :=
  [seq [:: p.1.1; p.1.2; p.2] | p <- points].

Lemma GetPoint_triples points :
  [seq GetPoint points i | i <- iota 0 (size points)] = triples points.
Proof.
elim: points => [|[[x y] z] points IHpoints] //=.
congr (_ :: _); rewrite -[1%N]addn0 iotaDl -map_comp -IHpoints.
exact: eq_map.
Qed.

Lemma shape_triples points : shape (triples points) = nseq (size points) 3.
Proof. by elim: points => [|p points IHpoints] //=; rewrite IHpoints. Qed.

Lemma coordinates_triples points : coordinates points = flatten (triples points).
Proof. by []. Qed.

(** The reshape of cell 48 undoes the flattening of cell 11: a row of [X]
    reshaped is the list of the points of its file. *)
Theorem reshape_points_flatten_shape (points : vtkPoints T) :
  reshape_points (flatten_shape points) = inr (Array2 3 (triples points)).
Proof.
rewrite /reshape_points /np_reshape flatten_shapeE size_coordinates.
rewrite mulKn // mulnC eqxx coordinates_triples -shape_triples.
by rewrite flattenK.
Qed.

(** For a file with at least one point, [read_vtk_points] returns the
    array with one row [x, y, z] per point: the array that reshaping the
    file's row of [X] gives. *)
Theorem read_vtk_points_triples (points : vtkPoints T) :
  (0 < GetNumberOfPoints points)%N ->
  read_vtk_points points = inr (Array2 3 (triples points)).
Proof.
rewrite /read_vtk_points /GetNumberOfPoints GetPoint_triples.
case: points => [|[[x y] z] points] //= _; rewrite /np_array /=.
suff -> : all (fun r : seq T => size r == 3) (triples points) by [].
by elim: points => [|p points IHpoints].
Qed.

(** The reshape of cell 48 is refused exactly when the number of features
    is not a multiple of three. *)
Theorem reshape_points_ValueError (flat : seq T) :
  (reshape_points flat = inl ValueError) <-> ~~ (3 %| size flat)%N.
Proof.
rewrite /reshape_points /np_reshape dvdn_eq.
by case: (_ == _); split.
Qed.

End Reshape.

End PointCloud.

(** ** The cumulative explained variance (cells 34 to 37) *)

Module Variance.

Import ShapeMatrixBuilder.

Section Cumulative.

Variable R : realFieldType.

(** [np.cumsum(v)]: the running sums. *)
Definition cumsum (v : seq R) : seq R := scanl +%R 0 v.

(** [c >= t], elementwise. *)
Definition ge_threshold (c : seq R) (t : R) : seq bool := [seq t <= x | x <- c].

(** [np.argmax(b)] of a boolean array: the index of the first [True], 0
    when there is none; an empty array is refused with [ValueError]. *)
Definition argmax (b : seq bool) : exception + nat :=
  if b is [::] then inl ValueError
  else inr (if has id b then find id b else 0%N).

(** Cell 36, for the threshold [t]:
    [np.argmax(cumulative_variance >= t) + 1], with
    [cumulative_variance = np.cumsum(explained_variance)] of cell 34. *)
Definition components_for (explained_variance : seq R) (t : R) : exception + nat :=
  let cumulative_variance := cumsum explained_variance in
  if argmax (ge_threshold cumulative_variance t) is inr k
  then inr (k + 1)%N else inl ValueError.





Lemma argmax_ge_threshold v t :
  argmax (ge_threshold (cumsum v) t)
    = if v is [::] then inl ValueError
      else inr (if has (fun x => t <= x) (cumsum v)
                then find (fun x => t <= x) (cumsum v) else 0%N).
Proof.
rewrite /argmax /ge_threshold has_map find_map.
by case: v => [|y v].
Qed.



(** When no running sum reaches the threshold, cell 36 still reports a
    number: 1. *)
Theorem components_for_unreached (explained_variance : seq R) (t : R) :
  explained_variance != [::] ->
  ~~ has (fun x => t <= x) (cumsum explained_variance) ->
  components_for explained_variance t = inr 1%N.
Proof.
rewrite /components_for argmax_ge_threshold.
by case: explained_variance => [|y v] // _ /negPf ->.
Qed.

(** A higher threshold that is reached never needs fewer components:
    the numbers printed for 90%, 95% and 99% are in this order. *)
Theorem components_for_threshold_le (explained_variance : seq R) (t t' : R) :
  t <= t' ->
  has (fun x => t' <= x) (cumsum explained_variance) ->
  exists n n' : nat,
    [/\ components_for explained_variance t = inr n,
        components_for explained_variance t' = inr n'
      & (n <= n')%N].
Proof.
move=> t_le reached'.
have sub : subpred (fun x => t' <= x) (fun x => t <= x).
  by move=> x; exact: le_trans.
have reached := sub_has sub reached'.
exists (find (fun x => t <= x) (cumsum explained_variance)).+1.
exists (find (fun x => t' <= x) (cumsum explained_variance)).+1.
rewrite /components_for !argmax_ge_threshold reached reached'.
split; last exact: sub_find.
- by case: explained_variance reached {reached'} => [|y v] //= _; rewrite addn1.
- by case: explained_variance reached' {reached} => [|y v] //= _; rewrite addn1.
Qed.


End Cumulative.

End Variance.

(** ** More on the comparison cells: order, trace, and the check of cell 3 *)

Module Spectrum.

Import Numpy Sklearn Notebook Comparison.

Section Check.

Variable R : realFieldType.
Variables (M N : nat) (X : 'M[R]_(M, N)).
Variables (eigh_values : 'rV[R]_N) (eigh_vectors : 'M[R]_N).
Variable pca : PCA R M N.

(** [np.allclose(a, b)] with the default tolerances:
    [|a - b| <= atol + rtol * |b|] at every index, [rtol = 1e-05],
    [atol = 1e-08]. *)
Definition allclose n (a b : 'rV[R]_n) : bool :=
  [forall j, `|a 0 j - b 0 j| <= 10%:R ^- 8 + 10%:R ^- 5 * `|b 0 j|].

(** Cell 3:
    [np.allclose(eigenvectors[:, 0], principal_components[0])], for any
    pair of indices. *)
Definition same_up_to_sign_check (i : 'I_N) (k : 'I_(minn M N)) : bool :=
  allclose (col i (eigenvectors eigh_values eigh_vectors))^T
           (row k (principal_components pca)).

(** Cell 1: the re-ordering keeps eigenpairs eigenpairs and loses no
    eigenvalue: the re-ordered values are a rearrangement of the values
    [eigh] returned. *)
Theorem reordering_keeps_eigenpairs (A : 'M[R]_N) :
  eigh A eigh_values eigh_vectors ->
  eigh A (eigenvalues eigh_values) (eigenvectors eigh_values eigh_vectors) /\
  perm_eq [seq eigenvalues eigh_values 0 i | i <- enum 'I_N]
          [seq eigh_values 0 i | i <- enum 'I_N].
Proof.
move=> /eigh_sorted eigen; split=> //.
have -> : [seq eigenvalues eigh_values 0 i | i <- enum 'I_N]
          = [seq eigh_values 0 i | i <- sorted_indices eigh_values].
  rewrite -[in RHS](map_tnth_enum (sorted_indices eigh_values)) -map_comp.
  by apply: eq_map => j; rewrite mxE.
apply: perm_map; rewrite /= perm_rev.
by rewrite (perm_trans (introT permPl (perm_sort _ _))) // val_ord_tuple.
Qed.

Lemma allclose_refl n (b : 'rV[R]_n) : allclose b b.
Proof.
apply/forallP=> j; rewrite subrr normr0 addr_ge0 ?mulr_ge0 //.
- by rewrite invr_ge0 exprn_ge0 ?ler0n.
- by rewrite invr_ge0 exprn_ge0 ?ler0n.
Qed.

Lemma tolerance_lt_half (b : R) :
  2%:R * 10%:R ^- 8 <= `|b| -> 10%:R ^- 8 + 10%:R ^- 5 * `|b| < `|b|.
Proof.
move=> large.
have two_gt0 : 0 < 2%:R :> R by rewrite ltr0n.
have half : 10%:R ^- 8 <= `|b| / 2%:R by rewrite ler_pdivlMr // mulrC.
have small : 10%:R ^- 5 < 2%:R^-1 :> R.
  rewrite ltf_pV2 ?qualifE /= ?exprn_gt0 ?ltr0n //.
  by rewrite -natrX ltr_nat.
have b_gt0 : 0 < `|b|.
  by apply: lt_le_trans large; rewrite mulr_gt0 ?invr_gt0 ?exprn_gt0 ?ltr0n.
apply: (@le_lt_trans _ _ (`|b| / 2%:R + 10%:R ^- 5 * `|b|)); first by rewrite lerD2r.
rewrite -[ltRHS]mulr1 -[X in _ < _ * X](divff (lt0r_neq0 two_gt0)) mulr2n.
by rewrite mulrDl mulrDr mul1r ltrD2l mulrC ltr_pM2l.
Qed.

Lemma two_atol_le1 : 2%:R * 10%:R ^- 8 <= 1 :> R.
Proof.
rewrite ler_pdivrMr ?exprn_gt0 ?ltr0n // mul1r.
apply: (@le_trans _ _ (10%:R ^+ 1)); first by rewrite expr1 ler_nat.
by rewrite ler_weXn2l // ler1n.
Qed.

Lemma allclose_same_sign n (a b : 'rV[R]_n) (j : 'I_n) :
  allclose a b -> 2%:R * 10%:R ^- 8 <= `|b 0 j| -> 0 < a 0 j * b 0 j.
Proof.
move=> /forallP /(_ j) close /tolerance_lt_half small.
have := le_lt_trans close small; rewrite ltr_norml.
case: (ltrgt0P (b 0 j)) => [b_gt0 | b_lt0 | b_0].
- case/andP=> lower _; rewrite mulr_gt0 //.
  by move: lower; rewrite -subr_gt0 opprK subrK.
- rewrite opprK => /andP [_ upper]; rewrite nmulr_rgt0 //.
  by move: upper; rewrite -subr_gt0 opprB addrA addNr add0r oppr_gt0.
- rewrite oppr0 b_0 subr0 => /andP [a_gt0 a_lt0].
  by have := lt_trans a_gt0 a_lt0; rewrite ltxx.
Qed.

(** Cell 3: the check does not ignore the sign.  When it answers [True],
    the eigenvector has, at every feature where the component is at least
    [2e-8] in magnitude, the sign of the component there; an eigenvector
    of the opposite sign is answered [False]. *)
Theorem same_up_to_sign_check_same_sign (i : 'I_N) (k : 'I_(minn M N)) (j : 'I_N) :
  same_up_to_sign_check i k ->
  2%:R * 10%:R ^- 8 <= `|principal_components pca k j| ->
  0 < eigenvectors eigh_values eigh_vectors j i * principal_components pca k j.
Proof.
move=> check large.
have := @allclose_same_sign _ _ _ j check.
by rewrite [(col _ _)^T _ _]mxE [col _ _ _ _]mxE [row _ _ _ _]mxE; apply.
Qed.

End Check.

End Spectrum.
(** ** The mode cell in binary64 (cell 50) *)

Module Float64.

Import ShapeMatrixBuilder PointCloud.

Local Open Scope float_scope.

(** [X_mean + coeff * mode_std * principal_components[:, selected_mode]]
    and the same with [-], at one feature: [coeff * mode_std] is one
    float64 product, multiplied by the entry of the mode, then added to
    or subtracted from the entry of the mean. *)
Definition effect_pos_entry (X_mean coeff mode_std component : float) : float :=
  X_mean + coeff * mode_std * component.

Definition effect_neg_entry (X_mean coeff mode_std component : float) : float :=
  X_mean - coeff * mode_std * component.

(** The two lines on the arrays: [X_mean] and the column
    [principal_components[:, selected_mode]] both have one entry per
    feature, and the operations are entry by entry. *)
Definition effect_selcted_mode_pos_flat
    (X_mean : seq float) (coeff mode_std : float) (component : seq float) : seq float :=
  [seq effect_pos_entry mp.1 coeff mode_std mp.2 | mp <- zip X_mean component].

Definition effect_selcted_mode_neg_flat
    (X_mean : seq float) (coeff mode_std : float) (component : seq float) : seq float :=
  [seq effect_neg_entry mp.1 coeff mode_std mp.2 | mp <- zip X_mean component].

(** [n_points = flat.shape[0] // 3; flat.reshape(n_points, 3)] *)
Definition effect_selcted_mode_pos
    (X_mean : seq float) (coeff mode_std : float) (component : seq float) :
    exception + ndarray float :=
  reshape_points (effect_selcted_mode_pos_flat X_mean coeff mode_std component).

Definition effect_selcted_mode_neg
    (X_mean : seq float) (coeff mode_std : float) (component : seq float) :
    exception + ndarray float :=
  reshape_points (effect_selcted_mode_neg_flat X_mean coeff mode_std component).

(** A mean of about -28.34, the notebook's [coeff = 3.0], a spread of
    about 2.11 and a mode entry of about -0.94. *)
Definition X_mean_j : float := -0x1.c570e30e311e7p+4.
Definition coeff : float := 0x1.8p+1.
Definition mode_std : float := 0x1.0e27946a11761p+1.
Definition component_j : float := -0x1.e24321bc76a3cp-1.

Example effect_entries :
  effect_pos_entry X_mean_j coeff mode_std component_j = -0x1.126eb2489d68p+5 /\
  effect_neg_entry X_mean_j coeff mode_std component_j = -0x1.6604618b276cdp+4.
Proof. by split; vm_compute. Qed.









(** One point, three features. *)
Example effect_selcted_mode_one_point :
  effect_selcted_mode_pos [:: X_mean_j; 0; 1] coeff mode_std [:: component_j; 0; 0]
    = inr (Array2 3 [:: [:: -0x1.126eb2489d68p+5; 0; 1]]) /\
  effect_selcted_mode_neg [:: X_mean_j; 0; 1] coeff mode_std [:: component_j; 0; 0]
    = inr (Array2 3 [:: [:: -0x1.6604618b276cdp+4; 0; 1]]).
Proof. by split; vm_compute. Qed.

End Float64.

(** ** A worked population: four samples, two features *)

Module Example.

Import Numpy Sklearn Notebook Comparison.

(** A two-dimensional array given by its rows. *)
Definition array2 (M N : nat) (rows : seq (seq rat)) : 'M[rat]_(M, N) :=
  \matrix_(i, j) nth 0 (nth [::] rows i) j.

(** The samples (4, 2), (4, 0), (0, 2), (0, 0); their mean is (2, 1). *)
Definition X : 'M[rat]_(4, 2) :=
  array2 4 2 [:: [:: 4%:R; 2%:R]; [:: 4%:R; 0]; [:: 0; 2%:R]; [:: 0; 0]].

(** A thin singular value decomposition of the centered samples:
    [U * diag(4, 2) * I]. *)
Definition U : 'M[rat]_(4, 2) :=
  array2 4 2 [:: [:: 1 / 2%:R; 1 / 2%:R]; [:: 1 / 2%:R; - (1 / 2%:R)];
                 [:: - (1 / 2%:R); 1 / 2%:R]; [:: - (1 / 2%:R); - (1 / 2%:R)]].

(** The PCA object after [fit] on the centered samples. *)
Definition pca : PCA rat 4 2 :=
  @mkPCA rat 4 2 0 1%:M (array2 1 2 [:: [:: 4%:R; 2%:R]])
         (array2 1 2 [:: [:: 16%:R / 3%:R; 4%:R / 3%:R]]).

(** What [eigh] returns for their covariance matrix, in ascending order. *)
Definition eigh_values : 'rV[rat]_2 :=
  array2 1 2 [:: [:: 4%:R / 3%:R; 16%:R / 3%:R]].

Definition eigh_vectors : 'M[rat]_2 := array2 2 2 [:: [:: 0; 1]; [:: 1; 0]].

Ltac ord_case i :=
  let m := fresh "m" in let lt_m := fresh "lt_m" in
  case: i => m lt_m; do 5 ?[case: m lt_m => [|m] lt_m //].

Ltac entries := do ?[rewrite mxE | rewrite big_ord_recl | rewrite big_ord0].

Ltac by_computation := apply/eqP; vm_compute; reflexivity.

Lemma U_orthonormal : U^T *m U = 1%:M.
Proof.
by apply/matrixP=> i j; entries; ord_case i; ord_case j; by_computation.
Qed.

Lemma pca_fit : fit (X_centered X) pca.
Proof.
split.
- by rewrite mean_axis0_centered.
- exists U; first exact: U_orthonormal.
  rewrite broadcast0 subr0 mulmx1.
  apply/matrixP=> i j; rewrite mul_mx_diag; entries.
  by ord_case i; ord_case j; by_computation.
- by rewrite /= trmx1 mulmx1.
- by apply/rowP=> k; entries; ord_case k; by_computation.
Qed.

Lemma X_centeredE :
  X_centered X = array2 4 2 [:: [:: 2%:R; 1]; [:: 2%:R; -1];
                                [:: - 2%:R; 1]; [:: - 2%:R; -1]].
Proof.
by apply/matrixP=> i j; entries; ord_case i; ord_case j; by_computation.
Qed.

Lemma cov_matrix_eigh : eigh (cov_matrix (X_centered X)) eigh_values eigh_vectors.
Proof.
rewrite /eigh cov_matrixE mean_axis0_centered // broadcast0 subr0 X_centeredE.
split; apply/matrixP=> i j; rewrite ?mul_mx_diag; entries.
- by ord_case i; ord_case j; by_computation.
- by ord_case i; ord_case j; by_computation.
Qed.

(** The first sample, (4, 2): its reconstructions with 0, 1 and 2
    components are (2, 1), (4, 1) and (4, 2). *)
Example reconstructed_shape_0 :
  reconstructed_shape X pca ord0 0 = array2 1 2 [:: [:: 2%:R; 1]].
Proof.
apply/rowP=> j; rewrite /reconstructed_shape /reconstruct /dot.
by entries; ord_case j; by_computation.
Qed.

Example reconstructed_shape_1 :
  reconstructed_shape X pca ord0 1 = array2 1 2 [:: [:: 4%:R; 1]].
Proof.
apply/rowP=> j; rewrite /reconstructed_shape /reconstruct /dot.
by entries; ord_case j; by_computation.
Qed.

Example reconstructed_shape_2 :
  reconstructed_shape X pca ord0 2 = array2 1 2 [:: [:: 4%:R; 2%:R]].
Proof.
apply/rowP=> j; rewrite /reconstructed_shape /reconstruct /dot.
by entries; ord_case j; by_computation.
Qed.

(** C1 on the centered samples. *)
Lemma pca_agrees_with_covariance_eigh_witness :
  let Xc := X_centered X in
  let values := eigenvalues eigh_values in
  let vectors := eigenvectors eigh_values eigh_vectors in
  let dots := principal_components pca *m vectors in
  [/\ (1 < 4)%N, (1 < 2)%N, fit Xc pca,
      eigh (cov_matrix Xc) eigh_values eigh_vectors
    & [/\ forall k,
            cov_matrix Xc *m (row k (principal_components pca))^T
              = explained_variance_ pca 0 k *: (row k (principal_components pca))^T,
          forall k,
            row k (principal_components pca)
              = \sum_(i < 2 | values 0 i == explained_variance_ pca 0 k)
                   dots k i *: (col i vectors)^T,
          forall i, values 0 i != 0 ->
            (col i vectors)^T
              = \sum_(k < minn 4 2 | explained_variance_ pca 0 k == values 0 i)
                   dots k i *: row k (principal_components pca)
        & forall x : rat, x != 0 ->
            #|[pred i | values 0 i == x]|
              = #|[pred k | explained_variance_ pca 0 k == x]| ] ].
Proof.
move=> Xc values vectors dots.
split=> //; [exact: pca_fit | exact: cov_matrix_eigh |].
exact: (pca_agrees_with_covariance_eigh (M := 4) (N := 2) isT isT pca_fit
                                        cov_matrix_eigh).
Defined.

(** *** Two samples of one point each, for the mode cell *)

Section ModeExample.

Variable R : rcfType.

(** The points (1, 0, 0) and (3, 0, 0); the mean shape is (2, 0, 0). *)
Definition Y : 'M[R]_(2, 1 * 3) :=
  \matrix_(i, j) nth 0 (nth [::] [:: [:: 1; 0; 0]; [:: 3%:R; 0; 0]] i) j.

(** A PCA object whose components are the first two coordinate axes. *)
Definition pcaY : PCA R 2 (1 * 3) :=
  @mkPCA R 2 (1 * 3) 0 (\matrix_(i, j) (i == j :> nat)%:R) 0 0.

(** The coefficients of the first mode are -1 and 1: their standard
    deviation is 1. *)
Example mode_std_Y : mode_std Y pcaY ord0 = 1.
Proof.
rewrite /mode_std /std /mean /principal_coefficients /transform.
rewrite /X_centered /X_mean.
by entries; rewrite /= -[RHS]sqrtr1; congr Num.sqrt; field.
Qed.

(** With [coeff = 3] the two shapes are (5, 0, 0) and (-1, 0, 0). *)
Example effect_selcted_mode_Y :
  effect_selcted_mode_pos Y pcaY ord0 3%:R
    = \matrix_(p < 1, d < 3) nth 0 [:: 5%:R; 0; 0] d /\
  effect_selcted_mode_neg Y pcaY ord0 3%:R
    = \matrix_(p < 1, d < 3) nth 0 [:: -1; 0; 0] d.
Proof.
rewrite /effect_selcted_mode_pos /effect_selcted_mode_neg.
rewrite /effect_selcted_mode_pos_flat /effect_selcted_mode_neg_flat mode_std_Y.
split; apply/matrixP=> p d; rewrite /X_mean; entries; rewrite !ord1 /=.
- by ord_case d; rewrite /=; field.
- by ord_case d; rewrite /=; field.
Qed.

End ModeExample.

End Example.

(** ** The added properties on concrete data *)

Module Checks.

Import ShapeMatrixBuilder PointCloud Variance Numpy Sklearn Notebook Comparison.
Import Spectrum Example.

(** A file of two points. *)
Lemma read_vtk_points_triples_witness :
  (0 < GetNumberOfPoints [:: (1, 2, 3); (4, 5, 6)])%N /\
  read_vtk_points [:: (1, 2, 3); (4, 5, 6)]%N
    = inr (Array2 3 [:: [:: 1; 2; 3]; [:: 4; 5; 6]])%N.
Proof.
split; first by [].
exact: (@read_vtk_points_triples nat [:: (1, 2, 3); (4, 5, 6)]%N isT).
Defined.

(** Variance ratios 6/10, 3/10, 1/10: the running sums are 6/10, 9/10, 1. *)
Definition ratios : seq rat := [:: 6%:R / 10%:R; 3%:R / 10%:R; 1 / 10%:R].

Example components_for_ratios :
  [/\ components_for ratios (1 / 2%:R) = inr 1%N,
      components_for ratios (9%:R / 10%:R) = inr 2%N,
      components_for ratios (95%:R / 100%:R) = inr 3%N
    & components_for ratios 2%:R = inr 1%N].
Proof. by split; vm_compute. Qed.


Lemma components_for_unreached_witness :
  [/\ ratios != [::], ~~ has (fun x => 2%:R <= x) (cumsum ratios)
    & components_for ratios 2%:R = inr 1%N].
Proof.
have unreached : ~~ has (fun x => 2%:R <= x) (cumsum ratios) by vm_compute.
split; [by [] | exact: unreached |].
exact: (@components_for_unreached rat ratios 2%:R isT unreached).
Defined.

Lemma components_for_threshold_le_witness :
  [/\ 9%:R / 10%:R <= 95%:R / 100%:R :> rat,
      has (fun x => 95%:R / 100%:R <= x) (cumsum ratios)
    & exists n n' : nat,
        [/\ components_for ratios (9%:R / 10%:R) = inr n,
            components_for ratios (95%:R / 100%:R) = inr n'
          & (n <= n')%N] ].
Proof.
have le : 9%:R / 10%:R <= 95%:R / 100%:R :> rat by vm_compute.
have reached : has (fun x => 95%:R / 100%:R <= x) (cumsum ratios) by vm_compute.
split; [exact: le | exact: reached |].
exact: (components_for_threshold_le le reached).
Defined.


(** *** On the population of four samples and two features *)

Lemma reconstructed_shape_full_witness :
  (minn 4 2 <= 11)%N /\
  reconstructed_shape X pca ord0 11 = reconstructed_shape_all X pca ord0.
Proof.
split; first by [].
exact: (@reconstructed_shape_full rat 4 2 X pca ord0 11 isT).
Defined.

(** The re-ordering of the example: index 1 (the value 16/3) comes
    first, index 0 (the value 4/3) second. *)
Example sorted_indices_example :
  val (sorted_indices eigh_values) = [:: ord_max; ord0].
Proof.
rewrite /= !enum_ordSl enum_ord0 /sort /=.
have -> : eigh_values 0 ord0 <= eigh_values 0 (lift ord0 ord0).
  by entries; by_computation.
by rewrite /=; congr [:: _; _]; apply: val_inj.
Qed.

Example eigenvalues_example :
  eigenvalues eigh_values = array2 1 2 [:: [:: 16%:R / 3%:R; 4%:R / 3%:R]].
Proof.
apply/rowP=> j; rewrite !mxE (tnth_nth ord0) sorted_indices_example.
by ord_case j; rewrite /= mxE /=.
Qed.

Lemma reordering_keeps_eigenpairs_witness :
  eigh (cov_matrix (X_centered X)) eigh_values eigh_vectors /\
  (eigh (cov_matrix (X_centered X)) (eigenvalues eigh_values)
        (eigenvectors eigh_values eigh_vectors) /\
   perm_eq [seq eigenvalues eigh_values 0 i | i <- enum 'I_2]
           [seq eigh_values 0 i | i <- enum 'I_2]).
Proof.
split; first exact: cov_matrix_eigh.
exact: (reordering_keeps_eigenpairs cov_matrix_eigh).
Defined.

Lemma eigenvalues_descending_witness :
  ((ord0 : 'I_2) <= (ord_max : 'I_2))%N /\
  eigenvalues eigh_values 0 ord_max <= eigenvalues eigh_values 0 ord0.
Proof.
split; first by [].
exact: (@eigenvalues_descending rat 2 eigh_values ord0 ord_max isT).
Defined.

(** The re-ordered eigenvectors of the example are the coordinate axes. *)
Example eigenvectors_example : eigenvectors eigh_values eigh_vectors = 1%:M.
Proof.
apply/matrixP=> i j; rewrite mxE (tnth_nth ord0) sorted_indices_example.
by ord_case i; ord_case j; rewrite /= !mxE.
Qed.

Lemma same_up_to_sign_check_example :
  same_up_to_sign_check eigh_values eigh_vectors pca ord0 ord0.
Proof.
rewrite /same_up_to_sign_check eigenvectors_example /principal_components /=.
rewrite tr_col trmx1; exact: allclose_refl.
Qed.

Lemma top_component_large :
  2%:R * 10%:R ^- 8 <= `|principal_components pca ord0 ord0|.
Proof.
rewrite /principal_components; entries; rewrite /= normr1.
exact: two_atol_le1.
Qed.

Lemma same_up_to_sign_check_same_sign_witness :
  [/\ same_up_to_sign_check eigh_values eigh_vectors pca ord0 ord0,
      2%:R * 10%:R ^- 8 <= `|principal_components pca ord0 ord0|
    & 0 < eigenvectors eigh_values eigh_vectors ord0 ord0
          * principal_components pca ord0 ord0].
Proof.
split; [exact: same_up_to_sign_check_example | exact: top_component_large |].
exact: (same_up_to_sign_check_same_sign same_up_to_sign_check_example
          top_component_large).
Defined.

End Checks.
